(** * debugging/open-spans.py: the span balance tracker

    A shallow embedding of the script and the properties of its
    accounting loop and of its end-of-run loop.

    The script reads lines, decodes each with [json.loads], and keeps a
    [defaultdict(lambda: 0)] from [tuple(obj['span'])] to a signed count.
    After the loop it binds [open = {}] and walks [opened.items()].

    What is taken as given: [fileinput.input()] and [json.loads] are
    library code.  A run is therefore described by the lines the reader
    delivers, each one either the JSON value it decodes to or a text that
    [json.loads] rejects, and by the way the reader stops (exhausted, or
    raising an exception). *)

From Stdlib Require Import ZArith NArith List Bool Lia Permutation.
From Stdlib Require Import String Ascii.
From Stdlib Require Import Floats.SpecFloat.
Import ListNotations.
Open Scope Z_scope.

Set Warnings "-register-all".

(** ** Python values produced by [json.loads] *)

(** A Python [str] is a sequence of code points. *)
Definition pystr : Type := list N.

Definition str (s : string) : pystr :=
  map N_of_ascii (list_ascii_of_string s).

(** The value [json.loads] returns, by the JSON text it was read from:
    [null] is [None], [true]/[false] are [bool], a number without fraction
    or exponent is an [int], any other number (and [NaN], [Infinity]) is a
    [float], an array is a [list], and an object is the [dict] built from
    its members in order. *)
Inductive json : Type :=
| JNull
| JBool (b : bool)
| JInt (z : Z)
| JFloat (f : spec_float)
| JStr (s : pystr)
| JArr (xs : list json)
| JObj (members : list (pystr * json)).

(** The exception classes that can occur in a run. *)
Inductive exn : Type :=
| BrokenPipeError
| OSError             (* any other OSError of the reader *)
| UnicodeDecodeError
| JSONDecodeError
| KeyError
| TypeError
| AttributeError.

(** ** Computations that may raise *)

Module Raise.

Definition M (A : Type) : Type := (exn + A)%type.

Definition ret {A} (a : A) : M A := inr a.

Definition raise {A} (e : exn) : M A := inl e.

Definition bind {A B} (m : M A) (k : A -> M B) : M B :=
  match m with
  | inl e => inl e
  | inr a => k a
  end.

End Raise.

Notation "x <- m ;; k" := (Raise.bind m (fun x => k))
  (at level 61, m at next level, right associativity).

(** ** Insertion-ordered dictionaries

    A Python [dict] keeps its keys in order of first insertion; storing
    under a key that is present replaces the value in place. *)

Section ODict.

Context {K V : Type}.
Variable K_eq_dec : forall a b : K, {a = b} + {a <> b}.

Definition odict : Type := list (K * V).

Fixpoint od_get (k : K) (d : odict) : option V :=
  match d with
  | [] => None
  | (k', v) :: d' => if K_eq_dec k k' then Some v else od_get k d'
  end.

Fixpoint od_set (k : K) (v : V) (d : odict) : odict :=
  match d with
  | [] => [(k, v)]
  | (k', v') :: d' =>
      if K_eq_dec k k' then (k', v) :: d' else (k', v') :: od_set k v d'
  end.

Definition od_keys (d : odict) : list K := map fst d.

End ODict.

Arguments odict : clear implicits.

(** ** Dictionary keys: hashing and equality

    A key of [opened] is a tuple, looked up by hash and [==].  For the
    values [json.loads] produces, [==] identifies numbers of equal value
    whatever their type ([True == 1 == 1.0], [0 == -0.0 == False]), every
    [NaN] is the one object [json.decoder.NaN] (found by identity), and
    values of different kinds are never equal.  An [atom] is the class of
    an element under [==]: equal atoms are exactly elements that the
    dictionary takes for the same key. *)

Inductive atom : Type :=
| ANone
| AInt (z : Z)                            (* a number with an integer value *)
| AFrac (neg : bool) (m : positive) (e : Z) (* m * 2^e with m odd and e < 0 *)
| AInf (neg : bool)
| ANaN
| AStr (s : pystr).

Definition key : Type := list atom.

Definition pystr_eq_dec : forall a b : pystr, {a = b} + {a <> b} :=
  list_eq_dec N.eq_dec.

Definition atom_eq_dec : forall a b : atom, {a = b} + {a <> b}.
Proof.
  decide equality;
    first [ apply Z.eq_dec | apply Pos.eq_dec | apply Bool.bool_dec
          | apply pystr_eq_dec ].
Defined.

Definition key_eq_dec : forall a b : key, {a = b} + {a <> b} :=
  list_eq_dec atom_eq_dec.

(** Divide the mantissa by two while it is even and the exponent negative. *)
Fixpoint strip_twos (m : positive) (e : Z) : positive * Z :=
  match m with
  | xO m' => if e <? 0 then strip_twos m' (e + 1) else (m, e)
  | _ => (m, e)
  end.

Definition float_atom (f : spec_float) : atom :=
  match f with
  | S754_zero _ => AInt 0
  | S754_infinity s => AInf s
  | S754_nan => ANaN
  | S754_finite s m e =>
      let '(m', e') := strip_twos m e in
      if e' <? 0 then AFrac s m' e'
      else AInt ((if s then -1 else 1) * (Z.pos m' * 2 ^ e'))
  end.

(** [hash(x)] for one element of the tuple: lists and dicts are
    unhashable. *)
Definition py_hashable (x : json) : Raise.M atom :=
  match x with
  | JNull => Raise.ret ANone
  | JBool b => Raise.ret (AInt (if b then 1 else 0))
  | JInt z => Raise.ret (AInt z)
  | JFloat f => Raise.ret (float_atom f)
  | JStr s => Raise.ret (AStr s)
  | JArr _ => Raise.raise TypeError
  | JObj _ => Raise.raise TypeError
  end.

(** Hashing a tuple hashes its elements in order. *)
Fixpoint tuple_key (t : list json) : Raise.M key :=
  match t with
  | [] => Raise.ret []
  | x :: t' =>
      a <- py_hashable x ;;
      k <- tuple_key t' ;;
      Raise.ret (a :: k)
  end.

(** ** The builtins the loop body calls *)

(** The [dict] of a JSON object: members are stored in order, a repeated
    name keeps its first position and takes the last value. *)
Definition dict_of_members (ms : list (pystr * json)) : odict pystr json :=
  fold_left (fun d m => od_set pystr_eq_dec (fst m) (snd m) d) ms [].

(** [obj[name]] with [name] a [str]. *)
Definition py_getitem (obj : json) (name : pystr) : Raise.M json :=
  match obj with
  | JObj ms =>
      match od_get pystr_eq_dec name (dict_of_members ms) with
      | Some v => Raise.ret v
      | None => Raise.raise KeyError
      end
  | _ => Raise.raise TypeError
  end.

(** [v == s] with [s] a [str]: true for that very string only, and it
    never raises. *)
Definition py_eq_str (v : json) (s : pystr) : bool :=
  match v with
  | JStr s' => if pystr_eq_dec s' s then true else false
  | _ => false
  end.

(** [tuple(v)]: the characters of a [str], the elements of a [list], the
    keys of a [dict]; anything else is not iterable. *)
Definition py_tuple (v : json) : Raise.M (list json) :=
  match v with
  | JStr s => Raise.ret (map (fun c => JStr [c]) s)
  | JArr xs => Raise.ret xs
  | JObj ms => Raise.ret (map JStr (od_keys (dict_of_members ms)))
  | _ => Raise.raise TypeError
  end.

(** ** Input *)

(** One line handed to [json.loads]. *)
Inductive line : Type :=
| Json (v : json)   (* the text of the JSON value [v] *)
| NotJson.          (* any text [json.loads] rejects *)

Definition json_loads (l : line) : Raise.M json :=
  match l with
  | Json v => Raise.ret v
  | NotJson => Raise.raise JSONDecodeError
  end.

(** What [fileinput.input()] delivers: the lines, then either exhaustion
    ([None]) or an exception raised by the reader. *)
Record input : Type := Input {
  lines : list line;
  ending : option exn
}.

(** ** The Balance Table [opened] *)

Definition table : Type := odict key Z.

(** [opened[k]] on a [defaultdict(lambda: 0)]: a missing key is first
    stored with the default. *)
Definition dd_getitem (k : key) (opened : table) : Z * table :=
  match od_get key_eq_dec k opened with
  | Some n => (n, opened)
  | None => (0, od_set key_eq_dec k 0 opened)
  end.

(** [opened[k] += d]. *)
Definition iadd (k : key) (d : Z) (opened : table) : table :=
  let '(n, opened') := dd_getitem k opened in
  od_set key_eq_dec k (n + d) opened'.

(** The body of [for line in fileinput.input()]. *)
Definition loop_body (opened : table) (l : line) : Raise.M table :=
  obj <- json_loads l ;;
  ty <- py_getitem obj (str "type") ;;
  if py_eq_str ty (str "new") then
    sp <- py_getitem obj (str "span") ;;
    t <- py_tuple sp ;;
    k <- tuple_key t ;;
    Raise.ret (iadd k 1 opened)
  else
    sp <- py_getitem obj (str "span") ;;
    t <- py_tuple sp ;;
    k <- tuple_key t ;;
    Raise.ret (iadd k (-1) opened).

(** The [for] loop: the table when the loop is left, and the exception
    then pending, if any. *)
Fixpoint for_lines (opened : table) (ls : list line) (ending : option exn)
  : table * option exn :=
  match ls with
  | [] => (opened, ending)
  | l :: ls' =>
      match loop_body opened l with
      | inl e => (opened, Some e)
      | inr opened' => for_lines opened' ls' ending
      end
  end.

(** [try: ... except BrokenPipeError: pass] around the loop. *)
Definition input_phase (inp : input) : table * option exn :=
  let '(opened, pending) := for_lines [] (lines inp) (ending inp) in
  match pending with
  | Some BrokenPipeError => (opened, None)
  | _ => (opened, pending)
  end.

(** ** The end-of-run loop *)

(** [open = {}] is a [dict]. *)
Definition open_dict : Type := odict key unit.

(** [open.push(k)]: [dict] has no attribute [push]; looking the attribute
    up raises before anything is called, and [open] is left as it was. *)
Definition dict_push (open : open_dict) (k : key) : Raise.M open_dict :=
  Raise.raise AttributeError.

(** [for k, n in opened.items(): if n > 0: open.push(k)]. *)
Fixpoint for_items (items : table) (open : open_dict)
  : open_dict * option exn :=
  match items with
  | [] => (open, None)
  | (k, n) :: rest =>
      if n >? 0 then
        match dict_push open k with
        | inl e => (open, Some e)
        | inr open' => for_items rest open'
        end
      else for_items rest open
  end.

(** How many times the body of that loop is entered: once per item, up
    to and including the one at which [open.push] raises. *)
Fixpoint for_items_steps (items : table) : nat :=
  match items with
  | [] => O
  | (k, n) :: rest =>
      if n >? 0 then 1%nat else S (for_items_steps rest)
  end.

(** ** The whole script *)

Inductive phase : Type := Reading | Emitting.

Inductive outcome : Type :=
| Completed                         (* the script ran to its end *)
| Uncaught (p : phase) (e : exn).   (* traceback, raised in phase [p] *)

Definition exit_code (o : outcome) : Z :=
  match o with
  | Completed => 0
  | Uncaught _ _ => 1
  end.

Record result : Type := Result {
  res_outcome : outcome;
  res_opened : table;              (* [opened] when the script stops *)
  res_open : option open_dict;     (* [open], once the script has bound it *)
  res_stdout : list pystr          (* what was written to standard output *)
}.

(** The script has no statement that writes: standard output stays
    empty on every path. *)
Definition main (inp : input) : result :=
  let '(opened, pending) := input_phase inp in
  match pending with
  | Some e => Result (Uncaught Reading e) opened None []
  | None =>
      let '(open, pending') := for_items opened [] in
      match pending' with
      | Some e => Result (Uncaught Emitting e) opened (Some open) []
      | None => Result Completed opened (Some open) []
      end
  end.

(** ** Events, counts and balances: the vocabulary of the properties *)

Record event : Type := Event {
  ev_new : bool;     (* [obj['type'] == "new"] *)
  ev_span : key      (* the key of [tuple(obj['span'])] *)
}.

(** The event a line stands for, when the loop body gets through it. *)
Definition decode_event (l : line) : Raise.M event :=
  obj <- json_loads l ;;
  ty <- py_getitem obj (str "type") ;;
  sp <- py_getitem obj (str "span") ;;
  t <- py_tuple sp ;;
  k <- tuple_key t ;;
  Raise.ret (Event (py_eq_str ty (str "new")) k).

Definition well_formed (l : line) : bool :=
  match decode_event l with
  | inr _ => true
  | inl _ => false
  end.

Definition apply_event (opened : table) (ev : event) : table :=
  iadd (ev_span ev) (if ev_new ev then 1 else -1) opened.

(** The events the loop gets through: those of the lines up to the first
    one that raises. *)
Fixpoint events_seen (ls : list line) : list event :=
  match ls with
  | [] => []
  | l :: ls' =>
      match decode_event l with
      | inr ev => ev :: events_seen ls'
      | inl _ => []
      end
  end.

(** The exception that makes the loop body stop, if a line raises one. *)
Fixpoint first_raise (ls : list line) : option exn :=
  match ls with
  | [] => None
  | l :: ls' =>
      match decode_event l with
      | inr _ => first_raise ls'
      | inl e => Some e
      end
  end.

(** The count an absent entry stands for. *)
Definition count_of (o : option Z) : Z :=
  match o with
  | Some n => n
  | None => 0
  end.

Definition is_for (id : key) (ev : event) : bool :=
  if key_eq_dec (ev_span ev) id then true else false.

Definition count_new (id : key) (evs : list event) : Z :=
  Z.of_nat (List.length (filter (fun ev => is_for id ev && ev_new ev) evs)).

Definition count_other (id : key) (evs : list event) : Z :=
  Z.of_nat (List.length (filter (fun ev => is_for id ev && negb (ev_new ev)) evs)).

Definition appears (id : key) (evs : list event) : bool :=
  existsb (is_for id) evs.

(** The entry of [id], if the table has one. *)
Definition balance (opened : table) (id : key) : option Z :=
  od_get key_eq_dec id opened.

(** The table after the loop has been given the first [n] lines. *)
Definition table_after (n : nat) (ls : list line) : table :=
  fst (for_lines [] (firstn n ls) None).

(** Some entry is strictly positive. *)
Definition has_positive (opened : table) : bool :=
  existsb (fun kn => snd kn >? 0) opened.

(** The reading phase is over and the script goes on to [open = {}]:
    the reader was exhausted, or stopped by a broken pipe. *)
Definition reaches_emission (inp : input) : bool :=
  match snd (input_phase inp) with
  | None => true
  | Some _ => false
  end.

(** Membership in [open]; nothing is a member before [open] is bound. *)
Definition in_open (id : key) (r : result) : Prop :=
  match res_open r with
  | Some open => In id (od_keys open)
  | None => False
  end.

(** A line that is no JSON, or a JSON object without [type] or without
    [span]. *)
Definition malformed (l : line) : bool :=
  match l with
  | NotJson => true
  | Json (JObj ms) =>
      match od_get pystr_eq_dec (str "type") (dict_of_members ms),
            od_get pystr_eq_dec (str "span") (dict_of_members ms) with
      | Some _, Some _ => false
      | _, _ => true
      end
  | Json _ => false
  end.

Definition malformed_exn (l : line) : exn :=
  match l with
  | NotJson => JSONDecodeError
  | Json _ => KeyError
  end.

(** ** Sample lines *)

Definition obj_line (ty : json) (span : json) : line :=
  Json (JObj [(str "type", ty); (str "span", span)]).

Definition new_line (span : json) : line := obj_line (JStr (str "new")) span.

Definition close_line (span : json) : line := obj_line (JStr (str "close")) span.

Definition span_a : json := JArr [JStr (str "a")].

Definition key_a : key := [AStr (str "a")].

(** ** Further vocabulary: accepted lines, key order, totals *)

(** A value that can be an element of a key: anything but a list or a
    dict. *)
Definition scalar (x : json) : bool :=
  match x with
  | JArr _ | JObj _ => false
  | _ => true
  end.

(** The values of [obj['span']] that [tuple] and the dictionary accept. *)
Definition span_ok (sp : json) : bool :=
  match sp with
  | JStr _ => true
  | JArr xs => forallb scalar xs
  | JObj _ => true
  | _ => false
  end.

(** Keys in order of first occurrence: [seen] extended by the keys of
    [ks] not met before, each at the end. *)
Section FirstSeen.

Context {K : Type}.
Variable K_eq_dec : forall a b : K, {a = b} + {a <> b}.

Definition see (seen : list K) (k : K) : list K :=
  if in_dec K_eq_dec k seen then seen else seen ++ [k].

Definition first_seen (ks : list K) (seen : list K) : list K :=
  fold_left see ks seen.

End FirstSeen.

(** [sum(opened.values())]. *)
Definition total (opened : table) : Z :=
  fold_right (fun kn acc => snd kn + acc) 0 opened.

Definition count_all_new (evs : list event) : Z :=
  Z.of_nat (List.length (filter ev_new evs)).

Definition count_all_other (evs : list event) : Z :=
  Z.of_nat (List.length (filter (fun ev => negb (ev_new ev)) evs)).

(** * Properties *)

(** ** Insertion-ordered dictionaries *)

Section ODictFacts.

Context {K V : Type}.
Variable dec : forall a b : K, {a = b} + {a <> b}.
Implicit Types (k : K) (v : V) (d : odict K V).

Lemma od_get_set_same k v d : od_get dec k (od_set dec k v d) = Some v.
Proof.
  induction d as [|[k' v'] d IH]; simpl.
  - destruct (dec k k); congruence.
  - destruct (dec k k') as [E|E]; simpl;
      destruct (dec k k'); congruence.
Qed.

Lemma od_get_set_other k k' v d :
  k' <> k -> od_get dec k' (od_set dec k v d) = od_get dec k' d.
Proof.
  intros N. induction d as [|[k0 v0] d IH]; simpl.
  - destruct (dec k' k); congruence.
  - destruct (dec k k0) as [E|E]; simpl;
      destruct (dec k' k0); congruence.
Qed.

Lemma od_keys_set_incl k v d : incl (od_keys d) (od_keys (od_set dec k v d)).
Proof.
  induction d as [|[k' v'] d IH]; simpl.
  - intros x [].
  - destruct (dec k k'); simpl.
    + apply incl_refl.
    + intros x [Hx|Hx]; [now left | right; now apply IH].
Qed.

Lemma od_get_In k d : od_get dec k d <> None <-> In k (od_keys d).
Proof.
  induction d as [|[k' v'] d IH]; simpl.
  - split; [congruence | tauto].
  - destruct (dec k k') as [E|E].
    + split; [intros _; left; congruence | congruence].
    + rewrite IH. split; [tauto | intros [H|H]; [congruence | exact H]].
Qed.

Lemma od_get_Some_In k v d : od_get dec k d = Some v -> In (k, v) d.
Proof.
  induction d as [|[k' v'] d IH]; simpl; [congruence|].
  destruct (dec k k') as [E|E].
  - intros H. left. congruence.
  - intros H. right. now apply IH.
Qed.

(** Keys stay pairwise distinct under [od_set]. *)
Lemma od_set_NoDup k v d :
  NoDup (od_keys d) -> NoDup (od_keys (od_set dec k v d)).
Proof.
  induction d as [|[k' v'] d IH]; simpl; intros ND.
  - constructor; [tauto | constructor].
  - inversion ND as [|? ? Hn ND']; subst.
    destruct (dec k k') as [E|E]; simpl.
    + constructor; assumption.
    + constructor; [|now apply IH].
      intros Hin. apply Hn.
      apply od_get_In. apply od_get_In in Hin.
      rewrite od_get_set_other in Hin by congruence. exact Hin.
Qed.

Lemma od_In_get k v d :
  NoDup (od_keys d) -> In (k, v) d -> od_get dec k d = Some v.
Proof.
  induction d as [|[k' v'] d IH]; simpl; intros ND Hin; [tauto|].
  inversion ND as [|? ? Hn ND']; subst.
  destruct Hin as [E|Hin].
  - inversion E; subst. destruct (dec k k); congruence.
  - destruct (dec k k') as [E|E].
    + subst. exfalso. apply Hn. change k' with (fst (k', v)).
      now apply in_map.
    + now apply IH.
Qed.

End ODictFacts.

(** ** The Balance Table under [+=] and [-=] *)

Lemma balance_iadd_same k d t :
  balance (iadd k d t) k = Some (count_of (balance t k) + d).
Proof.
  unfold balance, iadd, dd_getitem.
  destruct (od_get key_eq_dec k t) as [n|]; simpl;
    now rewrite od_get_set_same.
Qed.

Lemma balance_iadd_other k k' d t :
  k' <> k -> balance (iadd k d t) k' = balance t k'.
Proof.
  intros N. unfold balance, iadd, dd_getitem.
  destruct (od_get key_eq_dec k t) as [n|]; simpl;
    now rewrite !od_get_set_other by exact N.
Qed.

Lemma keys_iadd_incl k d t : incl (od_keys t) (od_keys (iadd k d t)).
Proof.
  unfold iadd, dd_getitem.
  destruct (od_get key_eq_dec k t) as [n|]; simpl.
  - apply od_keys_set_incl.
  - eapply incl_tran; apply od_keys_set_incl.
Qed.

Lemma iadd_NoDup k d t : NoDup (od_keys t) -> NoDup (od_keys (iadd k d t)).
Proof.
  intros ND. unfold iadd, dd_getitem.
  destruct (od_get key_eq_dec k t) as [n|]; simpl;
    repeat apply od_set_NoDup; exact ND.
Qed.

(** ** The loop body, seen as applying an event *)

Lemma loop_body_event opened l :
  loop_body opened l =
  match decode_event l with
  | inl e => inl e
  | inr ev => inr (apply_event opened ev)
  end.
Proof.
  unfold loop_body, decode_event, apply_event.
  destruct (json_loads l) as [e|obj]; simpl; [reflexivity|].
  destruct (py_getitem obj (str "type")) as [e|ty]; simpl; [reflexivity|].
  destruct (py_eq_str ty (str "new"));
    (destruct (py_getitem obj (str "span")) as [e|sp]; simpl; [reflexivity|]);
    (destruct (py_tuple sp) as [e|t]; simpl; [reflexivity|]);
    (destruct (tuple_key t) as [e|k]; simpl; reflexivity).
Qed.

Lemma for_lines_table opened ls e :
  fst (for_lines opened ls e) = fold_left apply_event (events_seen ls) opened.
Proof.
  revert opened. induction ls as [|l ls IH]; intros opened; simpl.
  - reflexivity.
  - rewrite loop_body_event.
    destruct (decode_event l) as [x|ev]; simpl; [reflexivity | apply IH].
Qed.

Lemma for_lines_pending opened ls e :
  snd (for_lines opened ls e) =
  match first_raise ls with
  | Some x => Some x
  | None => e
  end.
Proof.
  revert opened. induction ls as [|l ls IH]; intros opened; simpl.
  - reflexivity.
  - rewrite loop_body_event.
    destruct (decode_event l) as [x|ev]; simpl; [reflexivity | apply IH].
Qed.

Lemma events_seen_app a b :
  events_seen (a ++ b) =
  events_seen a ++ (if forallb well_formed a then events_seen b else []).
Proof.
  induction a as [|l a IH]; simpl.
  - reflexivity.
  - unfold well_formed at 1.
    destruct (decode_event l) as [x|ev]; simpl; [reflexivity|].
    now rewrite IH.
Qed.

Lemma events_seen_well_formed ls :
  forallb well_formed ls = true -> first_raise ls = None.
Proof.
  induction ls as [|l ls IH]; simpl; [reflexivity|].
  unfold well_formed at 1.
  destruct (decode_event l); simpl; [discriminate | exact IH].
Qed.

Lemma first_raise_app a b :
  first_raise (a ++ b) =
  match first_raise a with
  | Some x => Some x
  | None => first_raise b
  end.
Proof.
  induction a as [|l a IH]; simpl; [reflexivity|].
  destruct (decode_event l); [reflexivity | exact IH].
Qed.

Lemma input_phase_table inp :
  fst (input_phase inp) = fold_left apply_event (events_seen (lines inp)) [].
Proof.
  unfold input_phase.
  rewrite <- (for_lines_table [] (lines inp) (ending inp)).
  destruct (for_lines [] (lines inp) (ending inp)) as [t [[]|]]; reflexivity.
Qed.

Lemma main_opened inp :
  res_opened (main inp) = fold_left apply_event (events_seen (lines inp)) [].
Proof.
  rewrite <- input_phase_table. unfold main.
  destruct (input_phase inp) as [t [e|]]; simpl; [reflexivity|].
  destruct (for_items t []) as [o [e|]]; reflexivity.
Qed.

(** ** Counting *)

Lemma count_new_cons id ev evs :
  count_new id (ev :: evs) =
  (if is_for id ev && ev_new ev then 1 else 0) + count_new id evs.
Proof.
  unfold count_new. simpl.
  destruct (is_for id ev && ev_new ev); simpl List.length; lia.
Qed.

Lemma count_other_cons id ev evs :
  count_other id (ev :: evs) =
  (if is_for id ev && negb (ev_new ev) then 1 else 0) + count_other id evs.
Proof.
  unfold count_other. simpl.
  destruct (is_for id ev && negb (ev_new ev)); simpl List.length; lia.
Qed.

Lemma count_absent id evs :
  appears id evs = false -> count_new id evs = 0 /\ count_other id evs = 0.
Proof.
  induction evs as [|ev evs IH]; simpl; intros H.
  - split; reflexivity.
  - apply orb_false_iff in H as [H1 H2].
    rewrite count_new_cons, count_other_cons, H1. simpl.
    now apply IH.
Qed.

Lemma keys_fold_incl evs opened :
  incl (od_keys opened) (od_keys (fold_left apply_event evs opened)).
Proof.
  revert opened. induction evs as [|ev evs IH]; intros opened; simpl.
  - apply incl_refl.
  - eapply incl_tran; [apply keys_iadd_incl | apply IH].
Qed.

Lemma fold_NoDup evs opened :
  NoDup (od_keys opened) -> NoDup (od_keys (fold_left apply_event evs opened)).
Proof.
  revert opened. induction evs as [|ev evs IH]; intros opened ND; simpl.
  - exact ND.
  - apply IH. now apply iadd_NoDup.
Qed.

(** The entry of [id] after a run of events, from the entry before. *)
Lemma balance_fold id evs opened :
  balance (fold_left apply_event evs opened) id =
  if appears id evs
  then Some (count_of (balance opened id)
             + count_new id evs - count_other id evs)
  else balance opened id.
Proof.
  revert opened. induction evs as [|ev evs IH]; intros opened.
  - reflexivity.
  - simpl fold_left. rewrite IH. simpl appears.
    rewrite count_new_cons, count_other_cons.
    unfold apply_event, is_for.
    destruct (key_eq_dec (ev_span ev) id) as [E|E]; simpl.
    + subst id. rewrite balance_iadd_same. simpl count_of.
      destruct (appears (ev_span ev) evs) eqn:A.
      * f_equal. destruct (ev_new ev); cbn [negb]; lia.
      * destruct (count_absent _ _ A) as [-> ->].
        f_equal. destruct (ev_new ev); cbn [negb]; lia.
    + rewrite balance_iadd_other by congruence. reflexivity.
Qed.

(** ** Prefixes of the input *)

(** Running the loop over [a ++ b] is running it over [a] and, when no
    line of [a] raised, going on with [b] from the table reached. *)
Lemma for_lines_app opened a b e :
  for_lines opened (a ++ b) e =
  match for_lines opened a None with
  | (opened', None) => for_lines opened' b e
  | stopped => stopped
  end.
Proof.
  revert opened. induction a as [|l a IH]; intros opened; simpl.
  - reflexivity.
  - destruct (loop_body opened l) as [x|opened']; [reflexivity | apply IH].
Qed.

Lemma firstn_plus {A} (n m : nat) (l : list A) :
  firstn (n + m) l = firstn n l ++ firstn m (skipn n l).
Proof.
  revert l. induction n as [|n IH]; intros l; simpl.
  - reflexivity.
  - destruct l as [|x l]; simpl.
    + now destruct m.
    + now rewrite IH.
Qed.

Lemma keys_seen_app_incl a b :
  incl (od_keys (fold_left apply_event (events_seen a) []))
       (od_keys (fold_left apply_event (events_seen (a ++ b)) [])).
Proof.
  rewrite events_seen_app, fold_left_app. apply keys_fold_incl.
Qed.

(** C1: after the loop has consumed any prefix of the input, the Balance
    Table entry of every span identifier that occurs in an event seen so
    far is the number of "new" events seen for it minus the number of its
    other events (it may be negative), and an identifier not yet seen has
    no entry; the same holds of the table the script ends with; and a key
    that is in the table at some point is in it at every later point and
    at the end. *)
Theorem balance_invariant
  (ls : list line) (ending : option exn) (n m : nat) (id : key) :
  let seen := events_seen (firstn n ls) in
  let all := events_seen ls in
  balance (table_after n ls) id =
    (if appears id seen
     then Some (count_new id seen - count_other id seen) else None)
  /\ balance (res_opened (main (Input ls ending))) id =
    (if appears id all
     then Some (count_new id all - count_other id all) else None)
  /\ incl (od_keys (table_after n ls)) (od_keys (table_after (n + m) ls))
  /\ incl (od_keys (table_after n ls))
          (od_keys (res_opened (main (Input ls ending)))).
Proof.
  intros seen all. unfold table_after.
  rewrite !for_lines_table, main_opened. simpl lines.
  repeat split.
  - rewrite balance_fold. reflexivity.
  - rewrite balance_fold. reflexivity.
  - rewrite firstn_plus. apply keys_seen_app_incl.
  - rewrite <- (firstn_skipn n ls) at 2. apply keys_seen_app_incl.
Qed.

(** ** The end-of-run loop *)

Lemma for_items_spec items open :
  for_items items open =
  (open, if has_positive items then Some AttributeError else None).
Proof.
  induction items as [|[k n] items IH]; simpl.
  - reflexivity.
  - destruct (n >? 0); simpl; [reflexivity | exact IH].
Qed.

Lemma has_positive_balance opened :
  NoDup (od_keys opened) ->
  has_positive opened = true <->
  exists id n, balance opened id = Some n /\ 0 < n.
Proof.
  intros ND. unfold has_positive. rewrite existsb_exists. split.
  - intros [[k n] [Hin Hn]]. exists k, n. split.
    + now apply od_In_get.
    + simpl in Hn. lia.
  - intros (k & n & Hb & Hn). exists (k, n). split.
    + now apply od_get_Some_In in Hb.
    + simpl. lia.
Qed.

Lemma main_opened_NoDup inp : NoDup (od_keys (res_opened (main inp))).
Proof.
  rewrite main_opened. apply fold_NoDup. constructor.
Qed.

Lemma main_opened_input_phase inp : res_opened (main inp) = fst (input_phase inp).
Proof.
  now rewrite main_opened, input_phase_table.
Qed.

(** The script, phase by phase. *)
Lemma main_spec inp :
  main inp =
  match snd (input_phase inp) with
  | Some e => Result (Uncaught Reading e) (fst (input_phase inp)) None []
  | None =>
      if has_positive (fst (input_phase inp))
      then Result (Uncaught Emitting AttributeError)
                  (fst (input_phase inp)) (Some []) []
      else Result Completed (fst (input_phase inp)) (Some []) []
  end.
Proof.
  unfold main. destruct (input_phase inp) as [t [e|]]; simpl.
  - reflexivity.
  - rewrite for_items_spec. destruct (has_positive t); reflexivity.
Qed.

(** [open] never gets a member. *)
Lemma open_always_empty inp id : ~ in_open id (main inp).
Proof.
  unfold in_open. rewrite main_spec.
  destruct (snd (input_phase inp)); simpl; [tauto|].
  destruct (has_positive (fst (input_phase inp))); simpl; tauto.
Qed.

(** ** Exceptions of the loop body *)

Lemma py_getitem_exn obj name e :
  py_getitem obj name = inl e -> e = KeyError \/ e = TypeError.
Proof.
  destruct obj; simpl; try (intros [= <-]; now right).
  destruct (od_get _ _ _); [discriminate | intros [= <-]; now left].
Qed.

Lemma tuple_key_exn t e : tuple_key t = inl e -> e = TypeError.
Proof.
  induction t as [|x t IH]; simpl; [discriminate|].
  destruct x; simpl; try (intros [= <-]; reflexivity);
    (destruct (tuple_key t); simpl; [intros [= <-]; now apply IH | discriminate]).
Qed.

Lemma decode_event_exn l e :
  decode_event l = inl e ->
  e = JSONDecodeError \/ e = KeyError \/ e = TypeError.
Proof.
  unfold decode_event. destruct l as [obj|]; simpl; [|intros [= <-]; now left].
  destruct (py_getitem obj (str "type")) as [x|ty] eqn:Ty; simpl.
  { intros [= <-]. right. now apply py_getitem_exn in Ty. }
  destruct (py_getitem obj (str "span")) as [x|sp] eqn:Sp; simpl.
  { intros [= <-]. right. now apply py_getitem_exn in Sp. }
  destruct (py_tuple sp) as [x|t] eqn:Tu; simpl.
  { intros [= <-]. right. right. destruct sp; inversion Tu; reflexivity. }
  destruct (tuple_key t) as [x|k] eqn:Ke; simpl; [|discriminate].
  intros [= <-]. right. right. now apply tuple_key_exn in Ke.
Qed.

Lemma first_raise_exn ls e :
  first_raise ls = Some e ->
  e = JSONDecodeError \/ e = KeyError \/ e = TypeError.
Proof.
  induction ls as [|l ls IH]; simpl; [discriminate|].
  destruct (decode_event l) as [x|ev] eqn:D; [|exact IH].
  intros [= <-]. now apply decode_event_exn in D.
Qed.

Lemma decode_event_malformed l :
  malformed l = true -> decode_event l = inl (malformed_exn l).
Proof.
  unfold decode_event. destruct l as [obj|]; simpl; [|reflexivity].
  destruct obj; simpl; try discriminate.
  destruct (od_get pystr_eq_dec (str "type") (dict_of_members members));
    simpl; [|reflexivity].
  destruct (od_get pystr_eq_dec (str "span") (dict_of_members members));
    simpl; [discriminate | reflexivity].
Qed.

Lemma input_phase_pending inp :
  snd (input_phase inp) =
  match first_raise (lines inp) with
  | Some x => Some x
  | None =>
      match ending inp with
      | Some BrokenPipeError => None
      | other => other
      end
  end.
Proof.
  unfold input_phase.
  pose proof (for_lines_pending [] (lines inp) (ending inp)) as P.
  destruct (for_lines [] (lines inp) (ending inp)) as [t p]. simpl in P.
  destruct (first_raise (lines inp)) as [x|] eqn:F.
  - subst p. apply first_raise_exn in F.
    destruct F as [->|[->| ->]]; reflexivity.
  - subst p. destruct (ending inp) as [[]|]; reflexivity.
Qed.

(** ** The Open Set *)

(** C2: at the input of the single line
    [{"type":"new","span":["a"]}] the final balance of [("a",)] is 1,
    strictly positive, and yet the identifier is not in [open]: the
    script stops in [open.push] with AttributeError and [open] is still
    the empty dict.  The equivalence between membership in [open] and a
    strictly positive final balance fails from right to left. *)
Theorem open_set_lacks_positive_span :
  let r := main (Input [new_line span_a] None) in
  balance (res_opened r) key_a = Some 1
  /\ ~ in_open key_a r
  /\ res_open r = Some []
  /\ res_outcome r = Uncaught Emitting AttributeError.
Proof.
  cbv zeta. repeat split; try reflexivity.
  apply open_always_empty.
Qed.

(** C7: at the input of two lines [{"type":"new","span":["a"]}] the final
    balance of [("a",)] is 2, but the identifier occurs zero times in
    [open], not once: the script stops in [open.push] with
    AttributeError. *)
Theorem double_open_balance_two_not_in_open :
  let r := main (Input [new_line span_a; new_line span_a] None) in
  balance (res_opened r) key_a = Some 2
  /\ res_open r = Some []
  /\ ~ in_open key_a r
  /\ res_outcome r = Uncaught Emitting AttributeError.
Proof.
  cbv zeta. repeat split; try reflexivity.
  apply open_always_empty.
Qed.

(** C3, as stated, fails: on the empty input the end-of-run loop runs to
    its end and the script completes with exit code 0. *)
Lemma emission_completes_on_empty_input :
  ~ (forall inp : input, res_outcome (main inp) <> Completed)
  /\ res_outcome (main (Input [] None)) = Completed
  /\ exit_code (res_outcome (main (Input [] None))) = 0.
Proof.
  split; [|split; reflexivity].
  intros H. apply (H (Input [] None)). reflexivity.
Qed.

(** C3, amended: the end-of-run loop is reached exactly when the reading
    phase leaves no exception pending; once reached it raises
    AttributeError (from [open.push]) exactly when some balance is
    strictly positive and otherwise runs to its end; no other exception
    comes out of it; and on every input nothing is written to standard
    output and [open] never gets a member. *)
Theorem emission_fails_iff_positive_balance (inp : input) :
  (res_outcome (main inp) = Uncaught Emitting AttributeError <->
     reaches_emission inp = true /\
     exists id n, balance (res_opened (main inp)) id = Some n /\ 0 < n)
  /\ (res_outcome (main inp) = Completed <->
        reaches_emission inp = true /\
        forall id n, balance (res_opened (main inp)) id = Some n -> n <= 0)
  /\ (forall e, res_outcome (main inp) = Uncaught Emitting e ->
                e = AttributeError)
  /\ res_stdout (main inp) = []
  /\ (forall id, ~ in_open id (main inp)).
Proof.
  pose proof (main_opened_NoDup inp) as ND.
  pose proof (has_positive_balance _ ND) as HP.
  rewrite main_opened_input_phase in HP.
  rewrite main_opened_input_phase.
  unfold reaches_emission. rewrite main_spec.
  destruct (snd (input_phase inp)) as [x|]; simpl.
  - split; [|split; [|split; [|split]]].
    + split; [discriminate | intros [? _]; discriminate].
    + split; [discriminate | intros [? _]; discriminate].
    + intros e. discriminate.
    + reflexivity.
    + intros id. unfold in_open. simpl. tauto.
  - destruct (has_positive (fst (input_phase inp))) eqn:P; simpl.
    + destruct HP as [HP _]. specialize (HP eq_refl).
      split; [|split; [|split; [|split]]].
      * split; [intros _; split; [reflexivity | exact HP] | reflexivity].
      * split; [discriminate|].
        intros [_ H]. destruct HP as (id & n & Hb & Hn).
        specialize (H id n Hb). lia.
      * intros e [= <-]. reflexivity.
      * reflexivity.
      * intros id. unfold in_open. simpl. tauto.
    + split; [|split; [|split; [|split]]].
      * split; [discriminate|].
        intros [_ H]. apply HP in H. discriminate.
      * split; [|reflexivity]. intros _. split; [reflexivity|].
        intros id n Hb.
        destruct (Z_le_gt_dec n 0) as [L|G]; [exact L|].
        assert (false = true) as A
          by (apply HP; exists id, n; split; [exact Hb | lia]).
        discriminate A.
      * intros e. discriminate.
      * reflexivity.
      * intros id. unfold in_open. simpl. tauto.
Qed.

Lemma for_items_steps_no_positive opened :
  has_positive opened = false -> for_items_steps opened = List.length opened.
Proof.
  induction opened as [|[k n] t IH]; simpl; [reflexivity|].
  destruct (n >? 0); simpl; [discriminate|].
  intros H. now rewrite IH.
Qed.

(** C10, as stated, fails: after the single line
    [{"type":"close","span":["a"]}] the Balance Table has no strictly
    positive entry and the body of the end-of-run loop is entered once
    (its test [n > 0] is evaluated and fails); and after a single line
    that is no JSON the table has no strictly positive entry either, and
    the script ends with exit code 1. *)
Lemma loop_body_runs_on_nonpositive_table :
  (has_positive (res_opened (main (Input [close_line span_a] None))) = false
   /\ for_items_steps (res_opened (main (Input [close_line span_a] None)))
      = 1%nat)
  /\ (has_positive (res_opened (main (Input [NotJson] None))) = false
      /\ exit_code (res_outcome (main (Input [NotJson] None))) = 1).
Proof.
  repeat split.
Qed.

(** C10, amended: when the reading phase is over (input exhausted, or a
    broken pipe caught) with no strictly positive entry in the Balance
    Table, the end-of-run loop enters its body once per entry, the test
    [n > 0] fails each time and [open.push] is never called: the script
    completes, the exit code is 0, nothing is written and [open] is the
    empty dict. *)
Theorem no_positive_balance_completes (inp : input) :
  reaches_emission inp = true ->
  has_positive (fst (input_phase inp)) = false ->
  res_outcome (main inp) = Completed
  /\ exit_code (res_outcome (main inp)) = 0
  /\ res_stdout (main inp) = []
  /\ res_open (main inp) = Some []
  /\ for_items (res_opened (main inp)) [] = ([], None)
  /\ for_items_steps (res_opened (main inp))
     = List.length (res_opened (main inp)).
Proof.
  unfold reaches_emission. intros R P.
  rewrite for_items_spec, main_opened_input_phase, main_spec, P.
  rewrite (for_items_steps_no_positive _ P).
  destruct (snd (input_phase inp)); [discriminate|].
  simpl. repeat split.
Qed.

Lemma no_positive_balance_completes_witness :
  res_outcome (main (Input [close_line span_a] None)) = Completed
  /\ exit_code (res_outcome (main (Input [close_line span_a] None))) = 0
  /\ res_stdout (main (Input [close_line span_a] None)) = []
  /\ res_open (main (Input [close_line span_a] None)) = Some []
  /\ for_items (res_opened (main (Input [close_line span_a] None))) []
     = ([], None)
  /\ for_items_steps (res_opened (main (Input [close_line span_a] None)))
     = List.length (res_opened (main (Input [close_line span_a] None))).
Proof.
  apply (no_positive_balance_completes (Input [close_line span_a] None));
    reflexivity.
Defined.

(** ** Broken pipes *)

(** C4, as stated, fails: with one "new" line read and the reader then
    raising BrokenPipeError, the script does not stop as a success; it
    goes on to the end-of-run loop and ends with a traceback and exit
    code 1.  Even on no line at all the script does not stop at the
    handler: [open = {}] is executed after it. *)
Lemma broken_pipe_run_exits_nonzero :
  res_outcome (main (Input [new_line span_a] (Some BrokenPipeError)))
    = Uncaught Emitting AttributeError
  /\ exit_code
       (res_outcome (main (Input [new_line span_a] (Some BrokenPipeError))))
     <> 0
  /\ res_open (main (Input [] (Some BrokenPipeError))) = Some [].
Proof.
  split; [reflexivity | split; [discriminate | reflexivity]].
Qed.

(** C4, amended: a BrokenPipeError raised by the reader is caught and
    ends the reading phase only; the script then goes on exactly as if
    the input had been exhausted at that point, with the Balance Table
    built so far, and no run ends with an uncaught BrokenPipeError. *)
Theorem broken_pipe_is_end_of_input (ls : list line) :
  main (Input ls (Some BrokenPipeError)) = main (Input ls None)
  /\ forall ending p,
       res_outcome (main (Input ls ending)) <> Uncaught p BrokenPipeError.
Proof.
  split.
  - unfold main, input_phase. simpl.
    pose proof (for_lines_pending [] ls (Some BrokenPipeError)) as P1.
    pose proof (for_lines_pending [] ls None) as P2.
    pose proof (for_lines_table [] ls (Some BrokenPipeError)) as T1.
    pose proof (for_lines_table [] ls None) as T2.
    destruct (for_lines [] ls (Some BrokenPipeError)) as [t1 p1].
    destruct (for_lines [] ls None) as [t2 p2].
    simpl in *. subst t1 t2 p1 p2.
    destruct (first_raise ls) as [x|] eqn:F; [|reflexivity].
    apply first_raise_exn in F. destruct F as [->|[->| ->]]; reflexivity.
  - intros ending p. rewrite main_spec, input_phase_pending. simpl.
    destruct (first_raise ls) as [x|] eqn:F.
    + apply first_raise_exn in F. simpl.
      destruct F as [->|[->| ->]]; discriminate.
    + destruct ending as [[]|]; simpl;
        try discriminate;
        destruct (has_positive _); discriminate.
Qed.

(** ** Malformed lines *)

(** C5: whenever the input holds a line that is no JSON, or a JSON object
    without [type] or without [span], the run ends in the reading phase
    with an uncaught exception and exit code 1: the exception of that
    line (JSONDecodeError, resp. KeyError) when the lines before it go
    through, and otherwise that of the first earlier line that raises.
    The line is not skipped: the Balance Table is the one of the lines
    before it, nothing after it is counted, and [open] is never bound. *)
Theorem malformed_line_aborts
  (pre post : list line) (bad : line) (ending : option exn) :
  malformed bad = true ->
  let r := main (Input (pre ++ bad :: post) ending) in
  res_outcome r =
    Uncaught Reading
      (match first_raise pre with
       | Some e => e
       | None => malformed_exn bad
       end)
  /\ exit_code (res_outcome r) = 1
  /\ res_opened r = res_opened (main (Input pre None))
  /\ res_open r = None
  /\ (malformed_exn bad = JSONDecodeError \/ malformed_exn bad = KeyError).
Proof.
  intros Bad r.
  pose proof (decode_event_malformed bad Bad) as D.
  assert (O : res_outcome r =
              Uncaught Reading
                (match first_raise pre with
                 | Some e => e
                 | None => malformed_exn bad
                 end) /\ res_open r = None).
  { subst r. rewrite main_spec, input_phase_pending. simpl lines.
    rewrite first_raise_app. simpl first_raise. rewrite D.
    destruct (first_raise pre); split; reflexivity. }
  destruct O as [O1 O2].
  split; [exact O1|]. split; [now rewrite O1|].
  split; [|split; [exact O2|]].
  - subst r. rewrite !main_opened. simpl lines.
    rewrite events_seen_app. simpl events_seen. rewrite D.
    destruct (forallb well_formed pre); now rewrite app_nil_r.
  - destruct bad; simpl; [now right | now left].
Qed.

Lemma malformed_line_aborts_witness :
  res_outcome (main (Input ([new_line span_a] ++ NotJson :: [new_line span_a])
                           None))
  = Uncaught Reading JSONDecodeError
  /\ res_outcome
       (main (Input ([new_line span_a]
                       ++ Json (JObj [(str "type", JStr (str "new"))])
                       :: [new_line span_a])
                    (Some BrokenPipeError)))
     = Uncaught Reading KeyError.
Proof.
  split.
  - apply (malformed_line_aborts [new_line span_a] [new_line span_a]
             NotJson None). reflexivity.
  - apply (malformed_line_aborts [new_line span_a] [new_line span_a]
             (Json (JObj [(str "type", JStr (str "new"))]))
             (Some BrokenPipeError)). reflexivity.
Defined.

(** ** The [type] field *)

Lemma py_eq_str_true v s : py_eq_str v s = true <-> v = JStr s.
Proof.
  destruct v; simpl; try (split; [discriminate | intros [=]]).
  destruct (pystr_eq_dec s0 s) as [E|E]; split; congruence.
Qed.

(** C8: whatever JSON value [obj['type']] is, a number, [null], a
    boolean, an array, an object or a string, as long as it is not the
    string "new" the loop body raises nothing on account of it and
    subtracts one from the entry of the event's span. *)
Theorem non_new_type_decrements
  (obj ty sp : json) (t : list json) (k : key) (opened : table) :
  py_getitem obj (str "type") = inr ty ->
  ty <> JStr (str "new") ->
  py_getitem obj (str "span") = inr sp ->
  py_tuple sp = inr t ->
  tuple_key t = inr k ->
  loop_body opened (Json obj) = inr (iadd k (-1) opened)
  /\ balance (iadd k (-1) opened) k = Some (count_of (balance opened k) - 1).
Proof.
  intros Ty Ne Sp Tu Ke. split.
  - unfold loop_body. simpl json_loads. unfold Raise.bind at 1.
    unfold Raise.ret at 1. cbv beta iota.
    rewrite Ty. unfold Raise.bind at 1.
    destruct (py_eq_str ty (str "new")) eqn:E.
    + apply py_eq_str_true in E. contradiction.
    + rewrite Sp. unfold Raise.bind at 1. rewrite Tu.
      unfold Raise.bind at 1. rewrite Ke. reflexivity.
  - rewrite balance_iadd_same. f_equal.
Qed.

Lemma non_new_type_decrements_witness :
  loop_body [] (obj_line (JArr [JStr (str "new")]) span_a)
  = inr (iadd key_a (-1) [])
  /\ balance (iadd key_a (-1) []) key_a = Some (count_of (balance [] key_a) - 1).
Proof.
  apply (non_new_type_decrements
           (JObj [(str "type", JArr [JStr (str "new")]); (str "span", span_a)])
           (JArr [JStr (str "new")]) span_a [JStr (str "a")] key_a []);
    try reflexivity.
  discriminate.
Defined.

(** Each kind of JSON value in [type], on a table where [("a",)] is at 1. *)
Example non_string_types_decrement :
  map (fun ty => loop_body [(key_a, 1)] (obj_line ty span_a))
      [JInt 7; JFloat (S754_zero false); JNull; JBool true; JBool false;
       JArr []; JObj []; JStr (str "close"); JStr (str "New")]
  = repeat (inr [(key_a, 0)]) 9.
Proof. reflexivity. Qed.

(** ** Spans that are strings *)

(** C9: [tuple] of a string is the tuple of its characters, so a line
    whose span is a string and the line whose span is the array of its
    one-character strings do the same to the Balance Table; the spans
    "ab" and ["a","b"] are different JSON values and their events add up
    in the one entry of [("a","b")]. *)
Theorem string_span_shares_key_with_char_array :
  (forall s, py_tuple (JStr s) = py_tuple (JArr (map (fun c => JStr [c]) s)))
  /\ (forall ty s opened,
        loop_body opened (obj_line ty (JStr s)) =
        loop_body opened (obj_line ty (JArr (map (fun c => JStr [c]) s))))
  /\ JStr (str "ab") <> JArr [JStr (str "a"); JStr (str "b")]
  /\ res_opened
       (main (Input [new_line (JStr (str "ab"));
                     new_line (JArr [JStr (str "a"); JStr (str "b")])] None))
     = [([AStr (str "a"); AStr (str "b")], 2)].
Proof.
  split; [reflexivity|]. split; [|split; [discriminate | reflexivity]].
  intros ty s opened. reflexivity.
Qed.

(** ** Order of the events *)

Lemma events_seen_cons_wf l ls :
  well_formed l = true ->
  exists ev, decode_event l = inr ev /\ events_seen (l :: ls) = ev :: events_seen ls.
Proof.
  unfold well_formed. simpl.
  destruct (decode_event l) as [x|ev]; [discriminate|].
  intros _. now exists ev.
Qed.

Lemma appears_cons id ev evs :
  appears id (ev :: evs) = is_for id ev || appears id evs.
Proof. reflexivity. Qed.

(** Counts over the events of well-formed lines do not depend on the
    order of the lines. *)
Lemma permutation_counts ls ls' :
  Permutation ls ls' ->
  forallb well_formed ls = true ->
  forallb well_formed ls' = true
  /\ forall id,
       appears id (events_seen ls) = appears id (events_seen ls')
       /\ count_new id (events_seen ls) = count_new id (events_seen ls')
       /\ count_other id (events_seen ls) = count_other id (events_seen ls').
Proof.
  induction 1 as [|x l l' P IH|x y l|l l' l'' P1 IH1 P2 IH2]; intros W.
  - split; [reflexivity | intros id; repeat split].
  - simpl in W. apply andb_true_iff in W as [Wx Wl].
    destruct (IH Wl) as [Wl' C]. split.
    + simpl. now rewrite Wx, Wl'.
    + intros id. destruct (C id) as (Ca & Cn & Co).
      destruct (events_seen_cons_wf x l Wx) as (ev & D & ->).
      destruct (events_seen_cons_wf x l' Wx) as (ev' & D' & ->).
      assert (ev' = ev) by congruence. subst ev'.
      rewrite !appears_cons, !count_new_cons, !count_other_cons.
      rewrite Ca, Cn, Co. repeat split.
  - simpl in W. apply andb_true_iff in W as [Wy W].
    apply andb_true_iff in W as [Wx Wl]. split.
    + simpl. now rewrite Wx, Wy, Wl.
    + intros id.
      destruct (events_seen_cons_wf y (x :: l) Wy) as (ey & Dy & ->).
      destruct (events_seen_cons_wf x (y :: l) Wx) as (ex & Dx & ->).
      destruct (events_seen_cons_wf x l Wx) as (ex' & Dx' & ->).
      destruct (events_seen_cons_wf y l Wy) as (ey' & Dy' & ->).
      assert (ex' = ex) by congruence. assert (ey' = ey) by congruence.
      subst ex' ey'.
      rewrite !appears_cons, !count_new_cons, !count_other_cons.
      repeat split; try lia.
      destruct (is_for id ey), (is_for id ex); reflexivity.
  - destruct (IH1 W) as [W' C1]. destruct (IH2 W') as [W'' C2].
    split; [exact W''|]. intros id.
    destruct (C1 id) as (A1 & N1 & O1). destruct (C2 id) as (A2 & N2 & O2).
    repeat split; congruence.
Qed.

(** C6: reordering the events of an input, whether events of different
    span identifiers or of the same one, leaves the final balance of
    every identifier as it was; the balances in between may differ, as
    they do after the first line of an open followed by a close and of
    the close followed by the open. *)
Theorem final_balance_order_independent
  (ls ls' : list line) (ending : option exn) (id : key) :
  Permutation ls ls' ->
  forallb well_formed ls = true ->
  balance (res_opened (main (Input ls ending))) id
    = balance (res_opened (main (Input ls' ending))) id
  /\ (balance (table_after 1 [new_line span_a; close_line span_a]) key_a
        = Some 1
      /\ balance (table_after 1 [close_line span_a; new_line span_a]) key_a
        = Some (-1)
      /\ balance (table_after 2 [new_line span_a; close_line span_a]) key_a
        = balance (table_after 2 [close_line span_a; new_line span_a]) key_a).
Proof.
  intros P W. split; [|repeat split].
  destruct (permutation_counts ls ls' P W) as [_ C].
  destruct (C id) as (Ca & Cn & Co).
  rewrite !main_opened, !balance_fold. simpl lines.
  now rewrite Ca, Cn, Co.
Qed.

Lemma final_balance_order_independent_witness :
  balance
    (res_opened
       (main (Input [new_line span_a; close_line (JArr [JInt 1]);
                     close_line span_a] None))) key_a
  = balance
      (res_opened
         (main (Input [close_line span_a; new_line span_a;
                       close_line (JArr [JInt 1])] None))) key_a.
Proof.
  apply (final_balance_order_independent
           [new_line span_a; close_line (JArr [JInt 1]); close_line span_a]
           [close_line span_a; new_line span_a; close_line (JArr [JInt 1])]
           None key_a).
  - apply Permutation_sym.
    apply (Permutation_cons_app [new_line span_a; close_line (JArr [JInt 1])]
             [] (close_line span_a)).
    rewrite app_nil_r. apply Permutation_refl.
  - reflexivity.
Defined.

(** ** Sanity checks of the model *)

(** Numbers of equal value are one key, whatever their type; a string is
    never the key of a number. *)
Example equal_numbers_share_key :
  tuple_key [JBool true] = tuple_key [JInt 1]
  /\ tuple_key [JInt 1] = tuple_key [JFloat (S754_finite false 4503599627370496 (-52))]
  /\ tuple_key [JFloat (S754_zero true)] = tuple_key [JBool false]
  /\ tuple_key [JFloat (S754_finite false 6755399441055744 (-52))]
     = inr [AFrac false 3 (-1)]
  /\ tuple_key [JStr (str "1")] <> tuple_key [JInt 1]
  /\ tuple_key [JArr []] = inl TypeError.
Proof.
  repeat split. discriminate.
Qed.

(** The three-line scenario: [("b", 2)] is left at 1 and [("a", 1)] at 0. *)
Example open_close_scenario :
  res_opened
    (main (Input [new_line (JArr [JStr (str "a"); JInt 1]);
                  new_line (JArr [JStr (str "b"); JInt 2]);
                  close_line (JArr [JStr (str "a"); JInt 1])] None))
  = [([AStr (str "a"); AInt 1], 0); ([AStr (str "b"); AInt 2], 1)].
Proof. reflexivity. Qed.

(** A close without an open leaves the entry at -1. *)
Example unmatched_close_scenario :
  res_opened (main (Input [close_line (JArr [JStr (str "x")])] None))
  = [([AStr (str "x")], -1)].
Proof. reflexivity. Qed.

(** Values that cannot be subscripted, spans that cannot be made a key. *)
Example type_errors :
  map (fun l => res_outcome (main (Input [l] None)))
      [Json (JInt 5); Json (JArr []); Json (JStr (str "type"));
       new_line (JInt 5); new_line (JArr [JArr []]); new_line JNull]
  = repeat (Uncaught Reading TypeError) 6.
Proof. reflexivity. Qed.

(** * Further properties of the script *)

(** ** Exceptions of the reader *)

Lemma first_raise_none_iff ls :
  first_raise ls = None <-> forallb well_formed ls = true.
Proof.
  induction ls as [|l ls IH]; simpl; [tauto|].
  unfold well_formed at 1.
  destruct (decode_event l); simpl; [split; discriminate | exact IH].
Qed.

(** X1: the handler catches BrokenPipeError only.  When every line goes
    through and the reader then raises any other exception, that
    exception leaves the script uncaught: exit code 1, the end-of-run
    loop is not started, and the Balance Table is the one of the lines
    read. *)
Theorem reader_exception_propagates (ls : list line) (e : exn) :
  forallb well_formed ls = true ->
  e <> BrokenPipeError ->
  res_outcome (main (Input ls (Some e))) = Uncaught Reading e
  /\ exit_code (res_outcome (main (Input ls (Some e)))) = 1
  /\ res_open (main (Input ls (Some e))) = None
  /\ res_opened (main (Input ls (Some e))) = res_opened (main (Input ls None)).
Proof.
  intros W Ne. apply first_raise_none_iff in W.
  assert (O : res_outcome (main (Input ls (Some e))) = Uncaught Reading e
              /\ res_open (main (Input ls (Some e))) = None).
  { rewrite main_spec, input_phase_pending. simpl. rewrite W.
    destruct e; try contradiction; split; reflexivity. }
  destruct O as [O1 O2]. rewrite O1.
  repeat split; try assumption.
  now rewrite !main_opened.
Qed.

Lemma reader_exception_propagates_witness :
  res_outcome (main (Input [new_line span_a; close_line span_a] (Some OSError)))
  = Uncaught Reading OSError
  /\ exit_code
       (res_outcome
          (main (Input [new_line span_a; close_line span_a] (Some OSError))))
     = 1
  /\ res_open (main (Input [new_line span_a; close_line span_a] (Some OSError)))
     = None
  /\ res_opened
       (main (Input [new_line span_a; close_line span_a] (Some OSError)))
     = res_opened (main (Input [new_line span_a; close_line span_a] None)).
Proof.
  apply (reader_exception_propagates [new_line span_a; close_line span_a]
           OSError); [reflexivity | discriminate].
Defined.

(** ** The exit code *)

Lemma reaches_emission_iff inp :
  reaches_emission inp = true <->
  first_raise (lines inp) = None
  /\ (ending inp = None \/ ending inp = Some BrokenPipeError).
Proof.
  unfold reaches_emission. rewrite input_phase_pending.
  destruct (first_raise (lines inp)) as [x|].
  - split; [discriminate | intros [? _]; discriminate].
  - destruct (ending inp) as [[]|]; split;
      try discriminate; try (intros [_ [?|?]]; discriminate);
      intros _; split; solve [reflexivity | tauto].
Qed.

Lemma run_completes_iff inp :
  res_outcome (main inp) = Completed <->
  reaches_emission inp = true
  /\ forall id n, balance (res_opened (main inp)) id = Some n -> n <= 0.
Proof.
  pose proof (main_opened_NoDup inp) as ND.
  pose proof (has_positive_balance _ ND) as HP.
  rewrite main_opened_input_phase in HP.
  rewrite main_opened_input_phase.
  unfold reaches_emission. rewrite main_spec.
  destruct (snd (input_phase inp)) as [x|]; simpl.
  - split; [discriminate | intros [? _]; discriminate].
  - destruct (has_positive (fst (input_phase inp))) eqn:P; simpl.
    + destruct HP as [HP _]. destruct (HP eq_refl) as (id & n & Hb & Hn).
      split; [discriminate|]. intros [_ H]. specialize (H id n Hb). lia.
    + split; [|reflexivity]. intros _. split; [reflexivity|].
      intros id n Hb.
      destruct (Z_le_gt_dec n 0) as [L|G]; [exact L|].
      assert (false = true) as A
        by (apply HP; exists id, n; split; [exact Hb | lia]).
      discriminate A.
Qed.

(** X2: the script exits with code 0 exactly when every line is a
    well-formed event, the reader stops by exhaustion or by a broken
    pipe, and no span is left with a strictly positive balance. *)
Theorem exit_zero_iff (inp : input) :
  exit_code (res_outcome (main inp)) = 0 <->
  forallb well_formed (lines inp) = true
  /\ (ending inp = None \/ ending inp = Some BrokenPipeError)
  /\ forall id n, balance (res_opened (main inp)) id = Some n -> n <= 0.
Proof.
  pose proof (run_completes_iff inp) as C.
  pose proof (reaches_emission_iff inp) as R.
  rewrite <- first_raise_none_iff. split.
  - intros E.
    assert (O : res_outcome (main inp) = Completed)
      by (destruct (res_outcome (main inp)); [reflexivity | discriminate]).
    apply C in O as [Re NP]. split; [|split; [|exact NP]].
    + apply R in Re. tauto.
    + apply R in Re. tauto.
  - intros (F & En & NP).
    assert (O : res_outcome (main inp) = Completed).
    { apply C. split; [apply R; split; assumption | exact NP]. }
    now rewrite O.
Qed.

(** ** Which lines the loop body accepts *)

Lemma tuple_key_strs (l : list pystr) : tuple_key (map JStr l) = inr (map AStr l).
Proof.
  induction l as [|s l IH]; simpl; [reflexivity|].
  rewrite IH. reflexivity.
Qed.

Lemma tuple_key_scalars xs :
  forallb scalar xs = true <-> exists k, tuple_key xs = inr k.
Proof.
  induction xs as [|x xs IH]; simpl.
  - split; [intros _; now exists [] | reflexivity].
  - rewrite andb_true_iff, IH. split.
    + intros [S [k Hk]]. rewrite Hk.
      destruct x; try discriminate; simpl; eexists; reflexivity.
    + intros [k Hk]. destruct x; try discriminate; simpl in Hk;
        (destruct (tuple_key xs) as [e|k']; [discriminate|]);
        (split; [reflexivity | now exists k']).
Qed.

Lemma span_ok_iff sp :
  span_ok sp = true <->
  exists k, (t <- py_tuple sp ;; tuple_key t) = inr k.
Proof.
  destruct sp; simpl;
    try (split; [discriminate | intros [k Hk]; discriminate]).
  - split; [intros _ | reflexivity].
    rewrite <- (map_map (fun c => [c]) JStr), tuple_key_strs.
    now eexists.
  - apply tuple_key_scalars.
  - split; [intros _ | reflexivity].
    rewrite tuple_key_strs. now eexists.
Qed.

(** X3: the loop body gets through a line exactly when the line decodes
    to a JSON object that has a [type] and a [span], and the span is a
    string, an array none of whose elements is an array or an object, or
    an object.  Nothing is asked of the value of [type]. *)
Theorem well_formed_iff (l : line) :
  well_formed l = true <->
  exists obj ty sp,
    l = Json obj
    /\ py_getitem obj (str "type") = inr ty
    /\ py_getitem obj (str "span") = inr sp
    /\ span_ok sp = true.
Proof.
  unfold well_formed, decode_event. split.
  - destruct l as [obj|]; simpl; [|discriminate].
    destruct (py_getitem obj (str "type")) as [e|ty] eqn:Ty; simpl;
      [discriminate|].
    destruct (py_getitem obj (str "span")) as [e|sp] eqn:Sp; simpl;
      [discriminate|].
    intros H. exists obj, ty, sp. repeat split; try assumption.
    apply span_ok_iff.
    destruct (py_tuple sp) as [e|t]; simpl in *; [discriminate|].
    destruct (tuple_key t) as [e|k]; simpl in *; [discriminate|].
    now exists k.
  - intros (obj & ty & sp & -> & Ty & Sp & Ok). simpl.
    rewrite Ty. simpl. rewrite Sp. simpl.
    apply span_ok_iff in Ok as [k Hk].
    destruct (py_tuple sp) as [e|t]; simpl in *; [discriminate|].
    rewrite Hk. reflexivity.
Qed.

(** ** The order of the keys *)

Section FirstSeenFacts.

Context {K V : Type}.
Variable dec : forall a b : K, {a = b} + {a <> b}.

Lemma see_idem (seen : list K) k : see dec (see dec seen k) k = see dec seen k.
Proof.
  assert (I : In k (see dec seen k)).
  { unfold see. destruct (in_dec dec k seen) as [I|I]; [exact I|].
    apply in_or_app. right. now left. }
  revert I. generalize (see dec seen k). intros l I.
  unfold see. destruct (in_dec dec k l); [reflexivity | contradiction].
Qed.

Lemma od_keys_set (d : odict K V) k v :
  od_keys (od_set dec k v d) = see dec (od_keys d) k.
Proof.
  induction d as [|[k' v'] d IH]; simpl.
  - reflexivity.
  - change (od_keys ((k', v') :: d)) with (k' :: od_keys d).
    unfold see at 1.
    destruct (in_dec dec k (k' :: od_keys d)) as [I|I];
      destruct (dec k k') as [E|E]; simpl.
    + reflexivity.
    + f_equal. rewrite IH. unfold see.
      destruct (in_dec dec k (od_keys d)) as [J|J]; [reflexivity|].
      destruct I as [I|I]; [congruence | contradiction].
    + exfalso. apply I. left. congruence.
    + f_equal. rewrite IH. unfold see.
      destruct (in_dec dec k (od_keys d)) as [J|J]; [|reflexivity].
      exfalso. apply I. now right.
Qed.

End FirstSeenFacts.

Lemma od_keys_iadd k d t : od_keys (iadd k d t) = see key_eq_dec (od_keys t) k.
Proof.
  unfold iadd, dd_getitem.
  destruct (od_get key_eq_dec k t); simpl.
  - apply od_keys_set.
  - rewrite !od_keys_set. apply see_idem.
Qed.

Lemma od_keys_fold evs opened :
  od_keys (fold_left apply_event evs opened)
  = first_seen key_eq_dec (map ev_span evs) (od_keys opened).
Proof.
  revert opened. induction evs as [|ev evs IH]; intros opened; simpl.
  - reflexivity.
  - rewrite IH. unfold apply_event. now rewrite od_keys_iadd.
Qed.

(** X4: [opened.items()] walks the span identifiers in the order in which
    each was first met in the input: the keys of the Balance Table are
    the spans of the events processed, each kept at its first
    occurrence. *)
Theorem keys_in_order_of_first_event (inp : input) :
  od_keys (res_opened (main inp))
  = first_seen key_eq_dec (map ev_span (events_seen (lines inp))) [].
Proof.
  rewrite main_opened. apply od_keys_fold.
Qed.

(** ** The sum of the balances *)

Lemma total_od_set k v (t : table) :
  total (od_set key_eq_dec k v t)
  = total t - count_of (od_get key_eq_dec k t) + v.
Proof.
  induction t as [|[k' n] t IH]; simpl.
  - lia.
  - destruct (key_eq_dec k k'); simpl; [lia | rewrite IH; lia].
Qed.

Lemma total_iadd k d t : total (iadd k d t) = total t + d.
Proof.
  unfold iadd, dd_getitem.
  destruct (od_get key_eq_dec k t) as [n|] eqn:G.
  - rewrite total_od_set, G. simpl. lia.
  - rewrite !total_od_set, od_get_set_same, G. simpl. lia.
Qed.

Lemma total_fold evs opened :
  total (fold_left apply_event evs opened)
  = total opened + count_all_new evs - count_all_other evs.
Proof.
  revert opened. induction evs as [|ev evs IH]; intros opened.
  - unfold count_all_new, count_all_other. simpl. lia.
  - simpl fold_left. rewrite IH. unfold apply_event. rewrite total_iadd.
    unfold count_all_new, count_all_other. simpl filter.
    destruct (ev_new ev); cbn [negb List.length]; lia.
Qed.

(** X5: the balances of all spans add up to the number of "new" events
    processed minus the number of other events processed. *)
Theorem total_balance (inp : input) :
  total (res_opened (main inp))
  = count_all_new (events_seen (lines inp))
    - count_all_other (events_seen (lines inp)).
Proof.
  rewrite main_opened, total_fold. reflexivity.
Qed.

(** ** Inputs read one after the other *)

(** X6: reading a second input after a first one whose lines all go
    through (as [fileinput] does with several files) gives every span the
    sum of its balances in the two inputs read alone, an absent entry
    counting as 0. *)
Theorem balances_add_over_concatenation
  (a b : list line) (ending : option exn) (id : key) :
  forallb well_formed a = true ->
  count_of (balance (res_opened (main (Input (a ++ b) ending))) id)
  = count_of (balance (res_opened (main (Input a None))) id)
    + count_of (balance (res_opened (main (Input b ending))) id).
Proof.
  intros W. rewrite !main_opened. simpl lines.
  rewrite events_seen_app, W, fold_left_app, !balance_fold.
  destruct (appears id (events_seen b)) eqn:A; simpl; [lia|].
  change (od_get key_eq_dec id []) with (@None Z). simpl. lia.
Qed.

Lemma balances_add_over_concatenation_witness :
  count_of
    (balance
       (res_opened
          (main (Input ([new_line span_a; new_line span_a]
                          ++ [close_line span_a]) None))) key_a)
  = count_of
      (balance (res_opened (main (Input [new_line span_a; new_line span_a]
                                        None))) key_a)
    + count_of
        (balance (res_opened (main (Input [close_line span_a] None))) key_a).
Proof.
  apply (balances_add_over_concatenation
           [new_line span_a; new_line span_a] [close_line span_a] None key_a).
  reflexivity.
Defined.

(** ** Spans that are the same key *)

Lemma obj_line_type ty sp :
  py_getitem (JObj [(str "type", ty); (str "span", sp)]) (str "type") = inr ty.
Proof. reflexivity. Qed.

Lemma obj_line_span ty sp :
  py_getitem (JObj [(str "type", ty); (str "span", sp)]) (str "span") = inr sp.
Proof. reflexivity. Qed.

Lemma loop_body_obj_line opened ty sp :
  loop_body opened (obj_line ty sp) =
  (t <- py_tuple sp ;;
   k <- tuple_key t ;;
   Raise.ret (iadd k (if py_eq_str ty (str "new") then 1 else -1) opened)).
Proof.
  unfold loop_body, obj_line, json_loads, Raise.bind, Raise.ret.
  rewrite obj_line_type.
  destruct (py_eq_str ty (str "new")); rewrite obj_line_span; reflexivity.
Qed.






Lemma od_keys_members ms (d : odict pystr json) :
  od_keys (fold_left (fun d m => od_set pystr_eq_dec (fst m) (snd m) d) ms d)
  = first_seen pystr_eq_dec (map fst ms) (od_keys d).
Proof.
  revert d. induction ms as [|m ms IH]; intros d; simpl.
  - reflexivity.
  - rewrite IH. now rewrite od_keys_set.
Qed.

Lemma py_tuple_object ms :
  py_tuple (JObj ms)
  = py_tuple (JArr (map JStr (first_seen pystr_eq_dec (map fst ms) []))).
Proof.
  simpl. unfold dict_of_members. now rewrite od_keys_members.
Qed.

(** X8: of a span that is a JSON object only the member names count, in
    order of first occurrence: the line does to the Balance Table what
    the line with the array of those names does, and two object spans
    with the same names in the same order are the same span whatever
    their member values. *)
Theorem object_span_is_its_names
  (ms ms' : list (pystr * json)) (ty : json) (opened : table) :
  map fst ms = map fst ms' ->
  loop_body opened (obj_line ty (JObj ms))
  = loop_body opened (obj_line ty (JObj ms'))
  /\ loop_body opened (obj_line ty (JObj ms))
     = loop_body opened
         (obj_line ty
            (JArr (map JStr (first_seen pystr_eq_dec (map fst ms) [])))).
Proof.
  intros E. rewrite !loop_body_obj_line, !py_tuple_object, E.
  split; reflexivity.
Qed.

Lemma object_span_is_its_names_witness :
  loop_body [] (obj_line (JStr (str "new")) (JObj [(str "a", JInt 1)]))
  = loop_body [] (obj_line (JStr (str "new")) (JObj [(str "a", JArr [])]))
  /\ loop_body [] (obj_line (JStr (str "new")) (JObj [(str "a", JInt 1)]))
     = loop_body []
         (obj_line (JStr (str "new"))
            (JArr (map JStr
                     (first_seen pystr_eq_dec
                        (map fst [(str "a", JInt 1)]) [])))).
Proof.
  apply (object_span_is_its_names
           [(str "a", JInt 1)] [(str "a", JArr [])] (JStr (str "new")) []).
  reflexivity.
Defined.

(** ** Lines the loop body does not get through *)

Lemma for_lines_raising opened l rest e :
  well_formed l = false ->
  for_lines opened (l :: rest) e = for_lines opened [l] None.
Proof.
  unfold well_formed. intros W. simpl. rewrite loop_body_event.
  destruct (decode_event l); [reflexivity | discriminate].
Qed.

(** X9: a line the loop body raises on, for whatever reason (no JSON, no
    object, a missing name, a span that is no sequence or holds an array
    or an object), ends the run there with exit code 1: the lines after
    it and the way the reader would have stopped make no difference to
    the result. *)
Theorem raising_line_ends_run
  (pre post : list line) (l : line) (ending : option exn) :
  well_formed l = false ->
  main (Input (pre ++ l :: post) ending) = main (Input (pre ++ [l]) None)
  /\ exit_code (res_outcome (main (Input (pre ++ l :: post) ending))) = 1
  /\ res_opened (main (Input (pre ++ l :: post) ending))
     = res_opened (main (Input pre None)).
Proof.
  intros W.
  assert (E : main (Input (pre ++ l :: post) ending)
              = main (Input (pre ++ [l]) None)).
  { unfold main, input_phase. simpl.
    rewrite !for_lines_app.
    destruct (for_lines [] pre None) as [t [x|]]; [reflexivity|].
    now rewrite (for_lines_raising t l post ending W). }
  split; [exact E|]. rewrite E. split.
  - rewrite main_spec, input_phase_pending. simpl lines.
    rewrite first_raise_app. simpl first_raise.
    unfold well_formed in W.
    destruct (first_raise pre); [reflexivity|].
    destruct (decode_event l); [reflexivity | discriminate].
  - rewrite !main_opened. simpl lines. rewrite events_seen_app.
    simpl events_seen. unfold well_formed in W.
    destruct (decode_event l); [|discriminate].
    destruct (forallb well_formed pre); now rewrite app_nil_r.
Qed.

Lemma raising_line_ends_run_witness :
  main (Input ([new_line span_a] ++ new_line (JArr [JArr []])
                 :: [close_line span_a]) (Some BrokenPipeError))
  = main (Input ([new_line span_a] ++ [new_line (JArr [JArr []])]) None)
  /\ exit_code
       (res_outcome
          (main (Input ([new_line span_a] ++ new_line (JArr [JArr []])
                          :: [close_line span_a]) (Some BrokenPipeError))))
     = 1
  /\ res_opened
       (main (Input ([new_line span_a] ++ new_line (JArr [JArr []])
                       :: [close_line span_a]) (Some BrokenPipeError)))
     = res_opened (main (Input [new_line span_a] None)).
Proof.
  apply (raising_line_ends_run [new_line span_a] [close_line span_a]
           (new_line (JArr [JArr []])) (Some BrokenPipeError)).
  reflexivity.
Defined.
